(** * LossBalancer: a shallow embedding of [loss_balancer.py]

    The file follows the source top to bottom: the values a float tensor
    holds, the tensor operations the class uses, the class itself
    ([__init__], [_update_n_sample_counter], [_update_weights], [__call__])
    with explicit state passing, and a second rendering of [__call__] over a
    store of tensor objects, where the in-place [loss *= ...] is visible.

    Numbers.  A float tensor element is a [val]: an exact rational, or one of
    the IEEE special values that the divisions of the code produce (0/0 is
    NaN, x/0 is an infinity).  Finite arithmetic is exact: rounding to
    binary32 is not part of the model, so a statement here that two finite
    values are equal is, for the running code, a statement up to rounding
    (and, for the counters, one about totals that binary32 still holds
    exactly).  There is one zero, which behaves as IEEE +0. *)

From Stdlib Require Import ZArith QArith Qcanon Lia Bool.
From stdpp Require Import base list.

Open Scope Qc_scope.

(** ** Values of a float tensor *)

Inductive val : Type :=
| Fin (q : Qc)
| PInf
| NInf
| NaN.

(** A count, or a number of elements, as a tensor value. *)
Definition qnat (n : nat) : Qc := Qc_of_Z (Z.of_nat n).

Definition vzero : val := Fin 0.
Definition vone : val := Fin 1.

(** The value [a / b], for writing expected results down. *)
Definition ratio (a b : Z) : val := Fin (Qc_of_Z a / Qc_of_Z b).

(** [a + b] *)
Definition vadd (a b : val) : val :=
  match a, b with
  | NaN, _ | _, NaN => NaN
  | PInf, NInf | NInf, PInf => NaN
  | PInf, _ | _, PInf => PInf
  | NInf, _ | _, NInf => NInf
  | Fin x, Fin y => Fin (x + y)
  end.

(** The value with the sign of [x] and the size of [big]: NaN for [x = 0],
    [big] for [x > 0], [small] for [x < 0]. *)
Definition signed (x : Qc) (small big : val) : val :=
  if decide (x = 0) then NaN else if decide (0 < x) then big else small.

(** [a * b]; zero times an infinity is NaN. *)
Definition vmul (a b : val) : val :=
  match a, b with
  | NaN, _ | _, NaN => NaN
  | Fin x, Fin y => Fin (x * y)
  | Fin x, PInf | PInf, Fin x => signed x NInf PInf
  | Fin x, NInf | NInf, Fin x => signed x PInf NInf
  | PInf, PInf | NInf, NInf => PInf
  | PInf, NInf | NInf, PInf => NInf
  end.

(** [a / b]; a finite value over zero is 0/0 = NaN or a signed infinity. *)
Definition vdiv (a b : val) : val :=
  match a, b with
  | NaN, _ | _, NaN => NaN
  | Fin x, Fin y => if decide (y = 0) then signed x NInf PInf else Fin (x / y)
  | Fin _, PInf | Fin _, NInf => Fin 0
  | PInf, Fin y => if decide (y < 0) then NInf else PInf
  | NInf, Fin y => if decide (y < 0) then PInf else NInf
  | PInf, PInf | PInf, NInf | NInf, PInf | NInf, NInf => NaN
  end.

(** [a > 0]; false on NaN. *)
Definition vgt0 (a : val) : bool :=
  match a with
  | Fin x => bool_decide (0 < x)
  | PInf => true
  | NInf | NaN => false
  end.

(** [a ** (-1)] *)
Definition vrecip (a : val) : val := vdiv vone a.



Definition val_eqb (a b : val) : bool :=
  match a, b with
  | Fin x, Fin y => bool_decide (x = y)
  | PInf, PInf | NInf, NInf | NaN, NaN => true
  | _, _ => false
  end.

(** ** Tensors

    One-dimensional tensors: a float tensor is a list of values, a
    [LongTensor] of labels a list of integers. *)

Abbreviation tensor := (list val).
Abbreviation labels := (list Z).

Definition tensor_eqb (s t : tensor) : bool :=
  bool_decide (length s = length t) && forallb (fun p => val_eqb p.1 p.2) (zip s t).

(** [torch.zeros(n)], [torch.ones(n)] *)
Definition zeros (n : nat) : tensor := replicate n vzero.
Definition ones (n : nat) : tensor := replicate n vone.

(** [t.sum()] *)
Definition tsum (t : tensor) : val := foldl vadd vzero t.

(** [t.mean()]: the sum over the number of elements; NaN on an empty tensor. *)
Definition tmean (t : tensor) : val := vdiv (tsum t) (Fin (qnat (length t))).

(** [t / s] and [s * t] for a scalar [s] *)
Definition tdiv_scalar (t : tensor) (s : val) : tensor := (fun x => vdiv x s) <$> t.
Definition scalar_tmul (s : val) (t : tensor) : tensor := vmul s <$> t.

(** [(Tb == i).sum()]: how many labels equal the class index [i]. *)
Definition count_eq (Tb : labels) (i : nat) : nat :=
  length (filter (fun t => t = Z.of_nat i) Tb).

(** [weights[Tb == i] += r]: [r] is added where the label is [i]. *)
Fixpoint masked_add (Tb : labels) (i : nat) (r : val) (weights : tensor) : tensor :=
  match Tb, weights with
  | t :: Tb', w :: weights' =>
      (if bool_decide (t = Z.of_nat i) then vadd w r else w) :: masked_add Tb' i r weights'
  | _, _ => weights
  end.

(** Exceptions the calls can end in. *)
Inductive exn : Type :=
| NameError
| IndexError
| RuntimeError.

Inductive result (A : Type) : Type :=
| Ok (a : A)
| Raise (e : exn).
Arguments Ok {A} a.
Arguments Raise {A} e.

(** [loss *= w], in place on a tensor of [length loss] elements: the right
    operand must have the same length or length one (it is then broadcast);
    anything else is a shape error and leaves [loss] as it was. *)
Definition imul (loss w : tensor) : result tensor :=
  if bool_decide (length w = length loss) then Ok (zip_with vmul loss w)
  else match w with
       | [w0] => Ok ((fun x => vmul x w0) <$> loss)
       | _ => Raise RuntimeError
       end.

(** ** The module's global names

    [_update_weights] ends in [.to(loss.dtype).to(loss.device)], and [loss]
    is not one of its parameters: the name is looked up among the globals of
    the module.  Run as a script, line 60 has bound it to a float tensor
    before the first call; in an importing program it is bound only if that
    program put it there. *)

Inductive dtype : Type := float16 | float32 | float64.

Record module_globals : Type := { loss_global : option dtype }.

Definition script_globals : module_globals := {| loss_global := Some float32 |}.
Definition imported_globals : module_globals := {| loss_global := None |}.

(** [t.to(d)] between floating types (the precision is not modelled). *)
Definition to_dtype (d : dtype) (t : tensor) : tensor := t.

(** ** class LossBalancer *)

Record LossBalancer : Type := {
  n_classes_int : nat;
  cum_n_samp_per_cls : tensor;
  weights_norm : tensor
}.

(** [__init__]: the size is a [nat], [torch.zeros] rejecting a negative one. *)
Definition __init__ (n_classes : nat) : LossBalancer :=
  {| n_classes_int := n_classes;
     cum_n_samp_per_cls := zeros n_classes;
     weights_norm := tdiv_scalar (ones n_classes) (Fin (qnat n_classes)) |}.

(** One pass of the loop of [_update_n_sample_counter]:
    [cum[i] += (Tb == i).sum()]. *)
Definition counter_step (Tb : labels) (cum : tensor) (i : nat) : tensor :=
  match cum !! i with
  | Some c => <[i := vadd c (Fin (qnat (count_eq Tb i)))]> cum
  | None => cum
  end.

Definition update_counts (Tb : labels) (cum : tensor) : tensor :=
  foldl (counter_step Tb) cum (seq 0 (length cum)).

Definition _update_n_sample_counter (self : LossBalancer) (Tb : labels) : LossBalancer :=
  {| n_classes_int := n_classes_int self;
     cum_n_samp_per_cls := update_counts Tb (cum_n_samp_per_cls self);
     weights_norm := weights_norm self |}.

(** [probs_arr = 1. * cum / cum.sum()] *)
Definition probs_arr (cum : tensor) : tensor :=
  tdiv_scalar (scalar_tmul vone cum) (tsum cum).

(** [recip_probs_arr]: zero, but [p ** (-1)] where [p > 0]. *)
Definition recip_probs_arr (cum : tensor) : tensor :=
  (fun p => if vgt0 p then vrecip p else vzero) <$> probs_arr cum.

(** The loop [for i in range(n_classes_int): weights[Tb == i] += recip[i]],
    over the class indices still to visit; [recip[i]] past the end of
    [recip] is an [IndexError]. *)
Fixpoint weights_loop (recip : tensor) (Tb : labels) (classes : list nat)
    (weights : tensor) : result tensor :=
  match classes with
  | [] => Ok weights
  | i :: rest =>
      match recip !! i with
      | Some r => weights_loop recip Tb rest (masked_add Tb i r weights)
      | None => Raise IndexError
      end
  end.

(** The body of [_update_weights] up to the end of its loop: the per-sample
    [weights], from the counters [cum] and the class number [n]. *)
Definition sample_weights (n : nat) (cum : tensor) (Tb : labels) : result tensor :=
  weights_loop (recip_probs_arr cum) Tb (seq 0 n) (zeros (length Tb)).

(** Its last line: [(weights / weights.mean()).to(loss.dtype).to(loss.device)],
    the quotient first, then the look-up of the global [loss]. *)
Definition normalized_weights (g : module_globals) (n : nat) (cum : tensor)
    (Tb : labels) : result tensor :=
  match sample_weights n cum Tb with
  | Raise e => Raise e
  | Ok weights =>
      let normalized := tdiv_scalar weights (tmean weights) in
      match loss_global g with
      | None => Raise NameError
      | Some d => Ok (to_dtype d normalized)
      end
  end.

Definition _update_weights (g : module_globals) (self : LossBalancer) (Tb : labels)
    : result LossBalancer :=
  match normalized_weights g (n_classes_int self) (cum_n_samp_per_cls self) Tb with
  | Raise e => Raise e
  | Ok w =>
      Ok {| n_classes_int := n_classes_int self;
            cum_n_samp_per_cls := cum_n_samp_per_cls self;
            weights_norm := w |}
  end.

(** The balancer as [_update_weights] finds it: counted when training. *)
Definition counted (self : LossBalancer) (Tb : labels) (train : bool) : LossBalancer :=
  if train then _update_n_sample_counter self Tb else self.

(** [__call__]: the balancer after the call, and what the call returns or
    raises.  The counters are updated before anything can raise, so the
    state after a failed call carries them. *)
Definition __call__ (g : module_globals) (self : LossBalancer) (loss : tensor)
    (Tb : labels) (train : bool) : LossBalancer * result tensor :=
  match _update_weights g (counted self Tb train) Tb with
  | Raise e => (counted self Tb train, Raise e)
  | Ok weighted => (weighted, imul loss (weights_norm weighted))
  end.

(** A run of calls, each with its loss, labels and [train] flag; a call that
    raises is taken to be caught by the caller, who goes on. *)
Definition call_args : Type := tensor * labels * bool.

Definition run (g : module_globals) (self : LossBalancer) (calls : list call_args)
    : LossBalancer :=
  foldl (fun s c => (__call__ g s c.1.1 c.1.2 c.2).1) self calls.

(** ** The same class over a store of tensor objects

    [__call__] multiplies in place and returns its argument; [self] holds
    references to its two tensors, the counters being updated in place and
    [weights_norm] bound to a new tensor by every call.  A reference is an
    index into the store.  A running program holds no dangling reference;
    the branches for one are there to make the functions total. *)
Module ByRef.

Abbreviation ref := nat.
Abbreviation store := (list (list val)).

Record LossBalancer : Type := {
  n_classes_int : nat;
  cum_n_samp_per_cls : ref;
  weights_norm : ref
}.

Definition alloc (s : store) (t : tensor) : store * ref := (s ++ [t], length s).

Definition __init__ (s : store) (n_classes : nat) : store * LossBalancer :=
  let (s1, cum) := alloc s (zeros n_classes) in
  let (s2, w) := alloc s1 (tdiv_scalar (ones n_classes) (Fin (qnat n_classes))) in
  (s2, {| n_classes_int := n_classes; cum_n_samp_per_cls := cum; weights_norm := w |}).

Definition _update_n_sample_counter (s : store) (self : LossBalancer) (Tb : labels)
    : store :=
  match s !! cum_n_samp_per_cls self with
  | Some cum => <[cum_n_samp_per_cls self := update_counts Tb cum]> s
  | None => s
  end.

Definition _update_weights (g : module_globals) (s : store) (self : LossBalancer)
    (Tb : labels) : store * result LossBalancer :=
  match s !! cum_n_samp_per_cls self with
  | Some cum =>
      match normalized_weights g (n_classes_int self) cum Tb with
      | Raise e => (s, Raise e)
      | Ok w =>
          let (s', r) := alloc s w in
          (s', Ok {| n_classes_int := n_classes_int self;
                     cum_n_samp_per_cls := cum_n_samp_per_cls self;
                     weights_norm := r |})
      end
  | None => (s, Raise RuntimeError)
  end.

(** [loss *= self.weights_norm; return loss] on references. *)
Definition imul_ref (s : store) (loss w : ref) : store * result ref :=
  match s !! loss, s !! w with
  | Some l, Some wn =>
      match imul l wn with
      | Ok product => (<[loss := product]> s, Ok loss)
      | Raise e => (s, Raise e)
      end
  | _, _ => (s, Raise RuntimeError)
  end.

Definition __call__ (g : module_globals) (s : store) (self : LossBalancer) (loss : ref)
    (Tb : labels) (train : bool) : store * LossBalancer * result ref :=
  let s1 := if train then _update_n_sample_counter s self Tb else s in
  match _update_weights g s1 self Tb with
  | (s2, Raise e) => (s2, self, Raise e)
  | (s2, Ok weighted) =>
      let (s3, r) := imul_ref s2 loss (weights_norm weighted) in
      (s3, weighted, r)
  end.

End ByRef.

(** The balancer that a store holds behind the references of [self]. *)
Definition deref (s : ByRef.store) (self : ByRef.LossBalancer) : option LossBalancer :=
  match s !! ByRef.cum_n_samp_per_cls self, s !! ByRef.weights_norm self with
  | Some cum, Some w =>
      Some {| n_classes_int := ByRef.n_classes_int self;
              cum_n_samp_per_cls := cum;
              weights_norm := w |}
  | _, _ => None
  end.

(** The runs the statements below are about. *)
Definition training (batches : list (tensor * labels)) : list call_args :=
  (fun b => (b.1, b.2, true)) <$> batches.
Definition evaluating (batches : list (tensor * labels)) : list call_args :=
  (fun b => (b.1, b.2, false)) <$> batches.


(** The counters as a tensor. *)
Definition count_tensor (ks : list nat) : tensor := (fun k => Fin (qnat k)) <$> ks.

(** A label that names one of [n] classes. *)
Definition in_range (n : nat) (t : Z) : Prop := (0 <= t < Z.of_nat n)%Z.

(** The weight [recip[t]] that the loop over [n] classes gives a sample
    labelled [t]: zero when no class index equals the label. *)
Definition class_weight (recip : tensor) (n : nat) (t : Z) : val :=
  if decide (in_range n t) then default vzero (recip !! Z.to_nat t) else vzero.

Definition qsum (qs : list Qc) : Qc := foldr Qcplus 0 qs.

(** The reciprocal of the frequency [k / total] of a class counted [k]
    times among [total] samples, and zero for a class never counted. *)
Definition inv_freq (total k : nat) : Qc :=
  if decide (k = 0)%nat then 0 else qnat total / qnat k.

(** The weight of a sample labelled [t] when the [n] classes have the
    natural counts [ks]. *)
Definition count_weight (ks : list nat) (n : nat) (t : Z) : Qc :=
  if decide (in_range n t)
  then default 0 (inv_freq (sum_list ks) <$> ks !! Z.to_nat t)
  else 0.


(** The sum of the products [ls[i] * qs[i]]. *)
Definition qdot (ls qs : list Qc) : Qc := qsum (zip_with Qcmult ls qs).

(** * Properties *)

(** ** Values *)

Lemma val_eqb_eq (a b : val) : val_eqb a b = true -> a = b.
Proof.
  destruct a, b; simpl; try discriminate; try reflexivity.
  intros H. apply bool_decide_eq_true in H. by subst.
Qed.

Lemma tensor_eqb_eq (s t : tensor) : tensor_eqb s t = true -> s = t.
Proof.
  unfold tensor_eqb. rewrite andb_true_iff, bool_decide_eq_true.
  revert t. induction s as [|x s IH]; intros [|y t] [Hlen Hall];
    simpl in *; try discriminate; [reflexivity|].
  apply andb_true_iff in Hall as [Hxy Hall].
  f_equal; [by apply val_eqb_eq | apply IH; split; [lia | done]].
Qed.

Lemma vadd_zero_l (a : val) : vadd vzero a = a.
Proof. destruct a; simpl; try reflexivity. by rewrite Qcplus_0_l. Qed.

Lemma vmul_one_l (a : val) : vmul vone a = a.
Proof. destruct a; simpl; try reflexivity. by rewrite Qcmult_1_l. Qed.


Lemma vmul_nan_r (a : val) : vmul a NaN = NaN.
Proof. by destruct a. Qed.

Lemma vadd_fin_inv (a b : val) (m : Qc) :
  vadd a b = Fin m -> exists x y, a = Fin x /\ b = Fin y /\ m = x + y.
Proof.
  destruct a, b; simpl; try discriminate.
  intros [= <-]. eauto.
Qed.

Lemma signed_not_fin (x m : Qc) : signed x NInf PInf <> Fin m.
Proof. unfold signed. repeat case_decide; discriminate. Qed.

Lemma vdiv_fin_inv (a b : val) (m : Qc) :
  vdiv a b = Fin m ->
  (exists x y, a = Fin x /\ b = Fin y /\ y <> 0 /\ m = x / y) \/
  (exists x, a = Fin x /\ (b = PInf \/ b = NInf) /\ m = 0).
Proof.
  destruct a as [x| | |], b as [y| | |]; simpl; try discriminate;
    try (repeat case_decide; discriminate).
  - case_decide as Hy.
    + intros H. by apply signed_not_fin in H.
    + intros [= <-]. left. eauto 6.
  - intros [= <-]. right. eauto.
  - intros [= <-]. right. eauto.
Qed.

Lemma qnat_0 : qnat 0 = 0.
Proof. apply Z2Qc_inj_0. Qed.

Lemma qnat_add (a b : nat) : qnat (a + b) = qnat a + qnat b.
Proof. unfold qnat. by rewrite Nat2Z.inj_add, Z2Qc_inj_add. Qed.

Lemma qnat_lt (a b : nat) : (a < b)%nat -> qnat a < qnat b.
Proof. intros H. unfold qnat. apply (proj1 (Z2Qc_inj_lt _ _)). lia. Qed.


Lemma qnat_pos (a : nat) : (0 < a)%nat -> 0 < qnat a.
Proof. intros H. rewrite <- qnat_0. by apply qnat_lt. Qed.

Lemma qnat_nonzero (a : nat) : (0 < a)%nat -> qnat a <> 0.
Proof.
  intros H E. apply qnat_pos in H. rewrite E in H.
  by apply (irreflexivity Qclt) in H.
Qed.

(** ** Sums and means *)

Lemma foldl_vadd_fin (a : Qc) (qs : list Qc) :
  foldl vadd (Fin a) (Fin <$> qs) = Fin (a + qsum qs).
Proof.
  revert a. induction qs as [|q qs IH]; intros a; simpl.
  - by rewrite Qcplus_0_r.
  - rewrite IH. f_equal. ring.
Qed.

Lemma tsum_fin (qs : list Qc) : tsum (Fin <$> qs) = Fin (qsum qs).
Proof. unfold tsum, vzero. rewrite foldl_vadd_fin. f_equal. ring. Qed.

Lemma foldl_vadd_fin_inv (a : val) (t : tensor) (m : Qc) :
  foldl vadd a t = Fin m -> exists x qs, a = Fin x /\ t = Fin <$> qs.
Proof.
  revert a. induction t as [|v t IH]; intros a H; simpl in *.
  - exists m, []. done.
  - destruct (IH _ H) as (s & qs & Hs & ->).
    apply vadd_fin_inv in Hs as (x & y & -> & -> & _).
    exists x, (y :: qs). done.
Qed.

Lemma tsum_fin_inv (t : tensor) (m : Qc) :
  tsum t = Fin m -> exists qs, t = Fin <$> qs /\ m = qsum qs.
Proof.
  intros H. destruct (foldl_vadd_fin_inv _ _ _ H) as (x & qs & _ & ->).
  exists qs. split; [done|]. rewrite tsum_fin in H. by injection H.
Qed.

Lemma qsum_cons (q : Qc) (qs : list Qc) : qsum (q :: qs) = q + qsum qs.
Proof. reflexivity. Qed.

Lemma qsum_div (qs : list Qc) (m : Qc) :
  m <> 0 -> qsum ((fun q => q / m) <$> qs) = qsum qs / m.
Proof.
  intros Hm. induction qs as [|q qs IH].
  - simpl. field. done.
  - rewrite fmap_cons, !qsum_cons, IH. field. done.
Qed.

Lemma tdiv_scalar_fin (qs : list Qc) (m : Qc) :
  m <> 0 -> tdiv_scalar (Fin <$> qs) (Fin m) = Fin <$> ((fun q => q / m) <$> qs).
Proof.
  intros Hm. unfold tdiv_scalar. rewrite <- !list_fmap_compose.
  apply list_fmap_ext. intros _ q _. simpl. by rewrite decide_False.
Qed.

(** Dividing a tensor by its mean, when that is a number other than zero,
    leaves a tensor of mean one. *)
Lemma tmean_normalized (w : tensor) (m : Qc) :
  tmean w = Fin m -> m <> 0 -> tmean (tdiv_scalar w (Fin m)) = Fin 1.
Proof.
  unfold tmean. intros Hmean Hm.
  apply vdiv_fin_inv in Hmean as [(s & y & Hs & [= <-] & Hy & ->)|(? & _ & [[=]|[=]] & _)].
  apply tsum_fin_inv in Hs as (qs & -> & ->).
  rewrite tdiv_scalar_fin by done.
  rewrite tsum_fin, qsum_div by done.
  rewrite !length_fmap in *. simpl. rewrite decide_False by done.
  f_equal. field. split; [done|].
  intros E. apply Hm. rewrite E. field. done.
Qed.

(** ** The counting loop *)

Lemma counter_step_length (Tb : labels) (cum : tensor) (i : nat) :
  length (counter_step Tb cum i) = length cum.
Proof. unfold counter_step. destruct (cum !! i); [apply length_insert | done]. Qed.

Lemma counter_loop_length (Tb : labels) (cum : tensor) (classes : list nat) :
  length (foldl (counter_step Tb) cum classes) = length cum.
Proof.
  revert cum. induction classes as [|i classes IH]; intros cum; simpl; [done|].
  by rewrite IH, counter_step_length.
Qed.

(** After the first [k] passes the first [k] counters have been raised, each
    by the number of its class in the batch, and the others are untouched. *)
Lemma counter_loop_lookup (Tb : labels) (cum : tensor) (k i : nat) :
  (k <= length cum)%nat ->
  foldl (counter_step Tb) cum (seq 0 k) !! i =
    if decide (i < k)%nat
    then (fun c => vadd c (Fin (qnat (count_eq Tb i)))) <$> cum !! i
    else cum !! i.
Proof.
  revert i. induction k as [|k IH]; intros i Hk.
  - rewrite decide_False by lia. done.
  - rewrite seq_S, foldl_app. simpl.
    assert (Hlen := counter_loop_length Tb cum (seq 0 k)).
    assert (Hat := IH k ltac:(lia)). rewrite decide_False in Hat by lia.
    destruct (lookup_lt_is_Some_2 cum k ltac:(lia)) as [c Hc].
    unfold counter_step at 1. rewrite Hat, Hc.
    destruct (decide (i = k)) as [->|Hne].
    + rewrite list_lookup_insert_eq by lia.
      rewrite decide_True by lia. by rewrite Hc.
    + rewrite list_lookup_insert_ne by done.
      rewrite IH by lia. repeat case_decide; done || lia.
Qed.

Lemma update_counts_length (Tb : labels) (cum : tensor) :
  length (update_counts Tb cum) = length cum.
Proof. apply counter_loop_length. Qed.

Lemma update_counts_lookup (Tb : labels) (cum : tensor) (i : nat) :
  update_counts Tb cum !! i =
    (fun c => vadd c (Fin (qnat (count_eq Tb i)))) <$> cum !! i.
Proof.
  unfold update_counts. rewrite counter_loop_lookup by done.
  case_decide as Hi; [done|].
  by rewrite lookup_ge_None_2 by lia.
Qed.


(** A label outside the classes is counted nowhere. *)
Lemma count_eq_filter_in_range (n : nat) (Tb : labels) (i : nat) :
  (i < n)%nat -> count_eq (filter (in_range n) Tb) i = count_eq Tb i.
Proof.
  intros Hi. unfold count_eq. f_equal.
  induction Tb as [|t Tb IH]; [done|].
  rewrite !filter_cons.
  destruct (decide (t = Z.of_nat i)) as [->|Hne].
  - rewrite decide_True by (unfold in_range; lia).
    rewrite filter_cons, decide_True by done. by rewrite IH.
  - case_decide; [rewrite filter_cons, decide_False by done|]; apply IH.
Qed.

Lemma update_counts_filter_in_range (Tb : labels) (cum : tensor) :
  update_counts (filter (in_range (length cum)) Tb) cum = update_counts Tb cum.
Proof.
  apply list_eq. intros i. rewrite !update_counts_lookup.
  destruct (cum !! i) as [c|] eqn:Hc; simpl; [|done].
  apply lookup_lt_Some in Hc. by rewrite count_eq_filter_in_range.
Qed.

(** ** The weighting loop *)

Lemma masked_add_fmap (Tb : labels) (i : nat) (r : val) (f : Z -> val) :
  masked_add Tb i r (f <$> Tb) =
    (fun t => if bool_decide (t = Z.of_nat i) then vadd (f t) r else f t) <$> Tb.
Proof.
  induction Tb as [|t Tb IH]; [done|].
  rewrite !fmap_cons. cbn [masked_add]. by rewrite IH.
Qed.

(** With every index inside [recip] the loop raises nothing, and is a chain
    of masked additions. *)
Lemma weights_loop_ok (recip : tensor) (Tb : labels) (classes : list nat)
    (weights : tensor) :
  Forall (fun i => i < length recip)%nat classes ->
  weights_loop recip Tb classes weights =
    Ok (foldl (fun w i => masked_add Tb i (default vzero (recip !! i)) w)
          weights classes).
Proof.
  intros Hcs. revert weights.
  induction Hcs as [|i classes Hi _ IH]; intros weights; simpl; [done|].
  destruct (lookup_lt_is_Some_2 recip i Hi) as [r Hr].
  rewrite Hr. simpl. apply IH.
Qed.

(** An index past the end of [recip] raises, whatever the batch. *)
Lemma weights_loop_index_error (recip : tensor) (Tb : labels) (n : nat)
    (weights : tensor) :
  (length recip < n)%nat ->
  weights_loop recip Tb (seq 0 n) weights = Raise IndexError.
Proof.
  intros Hn.
  replace n with (length recip + S (n - S (length recip)))%nat by lia.
  rewrite seq_app. generalize (n - S (length recip))%nat. intros m.
  assert (Hpre : Forall (fun i => i < length recip)%nat (seq 0 (length recip))).
  { apply Forall_forall. intros i Hi. apply elem_of_seq in Hi. lia. }
  revert weights. generalize dependent (seq 0 (length recip)).
  intros visited Hpre.
  induction Hpre as [|i visited Hi _ IH]; intros weights; simpl.
  - by rewrite lookup_ge_None_2 by lia.
  - destruct (lookup_lt_is_Some_2 recip i Hi) as [r ->]. apply IH.
Qed.

Lemma class_weight_0 (recip : tensor) (t : Z) : class_weight recip 0 t = vzero.
Proof. unfold class_weight, in_range. case_decide; [lia | done]. Qed.

Lemma masked_chain_class_weight (recip : tensor) (Tb : labels) (n : nat) :
  foldl (fun w i => masked_add Tb i (default vzero (recip !! i)) w)
    (zeros (length Tb)) (seq 0 n) = class_weight recip n <$> Tb.
Proof.
  induction n as [|n IH].
  - simpl. unfold zeros. induction Tb as [|t Tb IHt]; simpl; [done|].
    by rewrite IHt, class_weight_0.
  - rewrite seq_S, foldl_app, IH. simpl. rewrite masked_add_fmap.
    apply list_fmap_ext. intros _ t _. unfold class_weight, in_range.
    case_bool_decide as Ht.
    + subst t. rewrite decide_False by lia. rewrite decide_True by lia.
      by rewrite vadd_zero_l, Nat2Z.id.
    + repeat case_decide; done || lia.
Qed.

(** What [_update_weights] has in [weights] after its loop: each sample has
    the reciprocal probability of its class, or zero when its label names no
    class. *)
Lemma sample_weights_ok (n : nat) (cum : tensor) (Tb : labels) :
  (n <= length cum)%nat ->
  sample_weights n cum Tb = Ok (class_weight (recip_probs_arr cum) n <$> Tb).
Proof.
  intros Hn. unfold sample_weights.
  rewrite weights_loop_ok, masked_chain_class_weight; [done|].
  apply Forall_forall. intros i Hi. apply elem_of_seq in Hi.
  unfold recip_probs_arr, probs_arr, tdiv_scalar, scalar_tmul.
  rewrite !length_fmap. lia.
Qed.

Lemma sample_weights_index_error (n : nat) (cum : tensor) (Tb : labels) :
  (length cum < n)%nat -> sample_weights n cum Tb = Raise IndexError.
Proof.
  intros Hn. apply weights_loop_index_error.
  unfold recip_probs_arr, probs_arr, tdiv_scalar, scalar_tmul.
  by rewrite !length_fmap.
Qed.

(** ** Reciprocal probabilities of natural counts *)

Lemma qsum_qnat (ks : list nat) : qsum (qnat <$> ks) = qnat (sum_list ks).
Proof.
  induction ks as [|k ks IH]; simpl.
  - by rewrite qnat_0.
  - rewrite qnat_add, <- IH. done.
Qed.

Lemma tsum_count_tensor (ks : list nat) :
  tsum (count_tensor ks) = Fin (qnat (sum_list ks)).
Proof.
  unfold count_tensor. rewrite (list_fmap_compose qnat Fin).
  by rewrite tsum_fin, qsum_qnat.
Qed.

Lemma sum_list_lookup_le (ks : list nat) (i k : nat) :
  ks !! i = Some k -> (k <= sum_list ks)%nat.
Proof.
  revert i. induction ks as [|k' ks IH]; intros [|i] H; simpl in *; try done.
  - injection H as ->. lia.
  - specialize (IH _ H). lia.
Qed.

Lemma Qcdiv_pos (x y : Qc) : 0 < x -> 0 < y -> 0 < x / y.
Proof. intros Hx Hy. apply Qcmult_pos_pos; [done | by apply Qcinv_pos]. Qed.

Lemma Qclt_nonzero (x : Qc) : 0 < x -> x <> 0.
Proof. intros H ->. by apply (irreflexivity Qclt) in H. Qed.

Lemma recip_probs_arr_count_tensor (ks : list nat) :
  recip_probs_arr (count_tensor ks) =
    (fun k => Fin (inv_freq (sum_list ks) k)) <$> ks.
Proof.
  unfold recip_probs_arr, probs_arr, tdiv_scalar, scalar_tmul.
  rewrite tsum_count_tensor. unfold count_tensor.
  rewrite <- !list_fmap_compose.
  apply list_fmap_ext. intros i k Hk. simpl.
  apply sum_list_lookup_le in Hk.
  unfold inv_freq. rewrite Qcmult_1_l.
  destruct (decide (k = 0)%nat) as [->|Hpos].
  - rewrite qnat_0. case_decide as Hs.
    + done.
    + done.
  - assert (Hk0 : 0 < qnat k) by (apply qnat_pos; lia).
    assert (Hs0 : 0 < qnat (sum_list ks)) by (apply qnat_pos; lia).
    rewrite decide_False by by apply Qclt_nonzero.
    simpl. rewrite bool_decide_eq_true_2 by by apply Qcdiv_pos.
    unfold vrecip. simpl.
    rewrite decide_False by by apply Qclt_nonzero, Qcdiv_pos.
    f_equal. field. split; by apply Qclt_nonzero.
Qed.

(** ** Calls and runs *)

Lemma counted_eval (self : LossBalancer) (Tb : labels) : counted self Tb false = self.
Proof. reflexivity. Qed.

Lemma update_weights_counts (g : module_globals) (self weighted : LossBalancer)
    (Tb : labels) :
  _update_weights g self Tb = Ok weighted ->
  cum_n_samp_per_cls weighted = cum_n_samp_per_cls self /\
  n_classes_int weighted = n_classes_int self.
Proof.
  unfold _update_weights. destruct (normalized_weights _ _ _ _); [|discriminate].
  by intros [= <-].
Qed.

(** Whatever a call returns or raises, it leaves the counters as it counted
    them, and the number of classes as it was. *)
Lemma call_counts (g : module_globals) (self : LossBalancer) (loss : tensor)
    (Tb : labels) (train : bool) :
  cum_n_samp_per_cls (__call__ g self loss Tb train).1 =
    cum_n_samp_per_cls (counted self Tb train) /\
  n_classes_int (__call__ g self loss Tb train).1 = n_classes_int self.
Proof.
  unfold __call__.
  destruct (_update_weights g (counted self Tb train) Tb) as [weighted|e] eqn:E; simpl.
  - apply update_weights_counts in E as [-> ->]. by destruct train.
  - by destruct train.
Qed.

(** Without the global [loss] a call counts, weighs, and then raises
    [NameError]; [weights_norm] stays what it was. *)
Lemma call_without_global_loss (g : module_globals) (self : LossBalancer)
    (loss : tensor) (Tb : labels) (train : bool) :
  loss_global g = None ->
  (n_classes_int self <= length (cum_n_samp_per_cls self))%nat ->
  __call__ g self loss Tb train = (counted self Tb train, Raise NameError).
Proof.
  intros Hg Hn. unfold __call__, _update_weights, normalized_weights.
  rewrite sample_weights_ok, Hg; [done|].
  destruct train; simpl; [by rewrite update_counts_length | done].
Qed.

(** So it is for the script's scenario when the module has been imported. *)
Example imported_scenario_raises :
  (__call__ imported_globals (__init__ 3) (replicate 6 vone)
     [0; 0; 0; 1; 1; 2]%Z true).2 = Raise NameError.
Proof. by rewrite call_without_global_loss. Qed.

Lemma run_snoc (g : module_globals) (self : LossBalancer) (calls : list call_args)
    (c : call_args) :
  run g self (calls ++ [c]) = (__call__ g (run g self calls) c.1.1 c.1.2 c.2).1.
Proof. unfold run. by rewrite foldl_app. Qed.

Lemma run_eval_counts (g : module_globals) (self : LossBalancer)
    (batches : list (tensor * labels)) :
  cum_n_samp_per_cls (run g self (evaluating batches)) = cum_n_samp_per_cls self /\
  n_classes_int (run g self (evaluating batches)) = n_classes_int self.
Proof.
  induction batches as [|b batches IH] using rev_ind; [done|].
  unfold evaluating in *. rewrite fmap_app. simpl. rewrite run_snoc. simpl.
  destruct (call_counts g (run g self ((fun b => (b.1, b.2, false)) <$> batches))
              b.1 b.2 false) as [-> ->].
  by rewrite counted_eval.
Qed.


Lemma zeros_count_tensor (n : nat) : zeros n = count_tensor (replicate n 0%nat).
Proof.
  unfold zeros, count_tensor. rewrite fmap_replicate. by rewrite qnat_0.
Qed.



(** ** Weights of natural counts *)

Lemma class_weight_count_tensor (ks : list nat) (n : nat) (t : Z) :
  class_weight (recip_probs_arr (count_tensor ks)) n t = Fin (count_weight ks n t).
Proof.
  unfold class_weight, count_weight. rewrite recip_probs_arr_count_tensor.
  case_decide; [|done].
  rewrite list_lookup_fmap. by destruct (ks !! Z.to_nat t).
Qed.

Lemma inv_freq_nonneg (total k : nat) : 0 <= inv_freq total k.
Proof.
  unfold inv_freq. case_decide; [done|].
  destruct (decide (total = 0)%nat) as [->|Ht].
  - rewrite qnat_0. replace (0 / qnat k) with 0; [done|].
    field. apply qnat_nonzero. lia.
  - apply Qclt_le_weak, Qcdiv_pos; apply qnat_pos; lia.
Qed.

Lemma count_weight_nonneg (ks : list nat) (n : nat) (t : Z) : 0 <= count_weight ks n t.
Proof.
  unfold count_weight. case_decide; [|done].
  destruct (ks !! Z.to_nat t); simpl; [apply inv_freq_nonneg | done].
Qed.

Lemma count_weight_lookup (ks : list nat) (n c k : nat) :
  (n = length ks)%nat -> ks !! c = Some k ->
  count_weight ks n (Z.of_nat c) = inv_freq (sum_list ks) k.
Proof.
  intros -> Hk. unfold count_weight, in_range.
  apply lookup_lt_Some in Hk as Hc.
  rewrite decide_True by lia. by rewrite Nat2Z.id, Hk.
Qed.

Lemma qsum_nonneg (qs : list Qc) : Forall (fun q => 0 <= q) qs -> 0 <= qsum qs.
Proof.
  induction 1 as [|q qs Hq _ IH]; [done|].
  rewrite qsum_cons. by apply Qcplus_nonneg_nonneg.
Qed.

Lemma qsum_pos (qs : list Qc) (i : nat) (q : Qc) :
  Forall (fun q => 0 <= q) qs -> qs !! i = Some q -> 0 < q -> 0 < qsum qs.
Proof.
  intros Hqs. revert i. induction Hqs as [|q' qs Hq' Hqs IH]; intros [|i] Hi Hq;
    simpl in Hi; try done.
  - injection Hi as ->. rewrite qsum_cons.
    apply Qcplus_pos_nonneg; [done | by apply qsum_nonneg].
  - rewrite qsum_cons. apply Qcplus_nonneg_pos; [done | by eapply IH].
Qed.

(** The weights of a call that finds natural counts [ks]: per sample the
    reciprocal frequency of its class, and in [weights_norm] these over
    their mean. *)
Lemma call_weights_count_tensor (g : module_globals) (self : LossBalancer)
    (loss : tensor) (Tb : labels) (train : bool) (d : dtype) (ks : list nat) :
  loss_global g = Some d ->
  n_classes_int self = length ks ->
  cum_n_samp_per_cls (counted self Tb train) = count_tensor ks ->
  let w := Fin <$> (count_weight ks (length ks) <$> Tb) in
  sample_weights (n_classes_int (counted self Tb train))
    (cum_n_samp_per_cls (counted self Tb train)) Tb = Ok w /\
  weights_norm (__call__ g self loss Tb train).1 = tdiv_scalar w (tmean w) /\
  (__call__ g self loss Tb train).2 = imul loss (tdiv_scalar w (tmean w)).
Proof.
  intros Hg Hn Hks w.
  assert (Hn' : n_classes_int (counted self Tb train) = length ks)
    by (by destruct train).
  assert (Hw : sample_weights (n_classes_int (counted self Tb train))
                 (cum_n_samp_per_cls (counted self Tb train)) Tb = Ok w).
  { rewrite sample_weights_ok.
    - rewrite Hks, Hn'. f_equal. subst w. rewrite <- list_fmap_compose.
      apply list_fmap_ext. intros _ t _. apply class_weight_count_tensor.
    - rewrite Hks, Hn'. unfold count_tensor. by rewrite length_fmap. }
  split; [done|].
  unfold __call__, _update_weights, normalized_weights. rewrite Hw, Hg. done.
Qed.

Lemma result_tensor_eq (r : result (list val)) (t : tensor) :
  match r with Ok t' => tensor_eqb t' t | Raise _ => false end = true -> r = Ok t.
Proof.
  destruct r as [t'|e]; [|discriminate].
  intros H. f_equal. by apply tensor_eqb_eq.
Qed.

(** * The claims *)

(** C1.  The scenario of the script: a fresh balancer for three classes,
    one training call with the losses [1,1,1,1,1,1] and the labels
    [0,0,0,1,1,2].  The counters are then [3,2,1], the reciprocal
    probabilities [2,3,6], the call returns [2/3, 2/3, 2/3, 1, 1, 2], and
    the mean of that is the mean of the losses it was given, 1. *)
Theorem scenario_first_training_call :
  let loss := replicate 6 vone in
  let balanced := [ratio 2 3; ratio 2 3; ratio 2 3; vone; vone; ratio 2 1] in
  let r := __call__ script_globals (__init__ 3) loss [0; 0; 0; 1; 1; 2]%Z true in
  cum_n_samp_per_cls r.1 = count_tensor [3; 2; 1]%nat /\
  recip_probs_arr (cum_n_samp_per_cls r.1) = [ratio 2 1; ratio 3 1; ratio 6 1] /\
  weights_norm r.1 = balanced /\
  r.2 = Ok balanced /\
  tmean balanced = Fin 1 /\
  tmean loss = Fin 1.
Proof.
  intros loss balanced r. split; [|split; [|split; [|split; [|split]]]].
  - apply tensor_eqb_eq. vm_compute. reflexivity.
  - apply tensor_eqb_eq. vm_compute. reflexivity.
  - apply tensor_eqb_eq. vm_compute. reflexivity.
  - apply result_tensor_eq. vm_compute. reflexivity.
  - apply val_eqb_eq. vm_compute. reflexivity.
  - apply val_eqb_eq. vm_compute. reflexivity.
Qed.


(** C3.  Calls with [train = False], any number of them, on any batches and
    from any state, leave the counters as they were. *)
Theorem eval_calls_keep_counts (g : module_globals) (self : LossBalancer)
    (batches : list (tensor * labels)) :
  cum_n_samp_per_cls (run g self (evaluating batches)) = cum_n_samp_per_cls self.
Proof. apply run_eval_counts. Qed.




Lemma tmean_fin (qs : list Qc) :
  qs <> [] -> tmean (Fin <$> qs) = Fin (qsum qs / qnat (length qs)).
Proof.
  intros Hne. unfold tmean. rewrite tsum_fin, length_fmap. simpl.
  rewrite decide_False; [done|].
  apply qnat_nonzero. destruct qs; [done | simpl; lia].
Qed.




(** C6, as it is stated, fails: nothing in the class checks a label.  With
    three classes the label 5 raises nothing; the call returns, the sample
    is counted for no class, and its loss comes back as zero. *)
Lemma out_of_range_label_counterexample :
  let r := __call__ script_globals (__init__ 3) [vone; vone] [0; 5]%Z true in
  ~ in_range 3 5 /\
  r.2 = Ok [ratio 2 1; vzero] /\
  cum_n_samp_per_cls r.1 = count_tensor [1; 0; 0]%nat.
Proof.
  intros r. split; [|split].
  - unfold in_range. lia.
  - apply result_tensor_eq. vm_compute. reflexivity.
  - apply tensor_eqb_eq. vm_compute. reflexivity.
Qed.

Lemma counted_length (self : LossBalancer) (Tb : labels) (train : bool) :
  length (cum_n_samp_per_cls (counted self Tb train)) =
    length (cum_n_samp_per_cls self) /\
  n_classes_int (counted self Tb train) = n_classes_int self.
Proof. destruct train; simpl; [by rewrite update_counts_length | done]. Qed.

Lemma imul_same_length (loss w : tensor) :
  length w = length loss -> imul loss w = Ok (zip_with vmul loss w).
Proof. intros H. unfold imul. by rewrite bool_decide_eq_true_2. Qed.

(** C6, amended.  A label outside the classes raises nothing and is passed
    over: on a balancer as [__init__] shapes it, a call with such a label
    returns as it would without it, its counters are those that the labels
    inside the classes alone give, and the sample of that label has the
    per-sample weight zero. *)
Theorem out_of_range_label_is_ignored (g : module_globals) (self : LossBalancer)
    (loss : tensor) (Tb : labels) (train : bool) (d : dtype) (j : nat) (t : Z) :
  loss_global g = Some d ->
  length loss = length Tb ->
  n_classes_int self = length (cum_n_samp_per_cls self) ->
  Tb !! j = Some t ->
  ~ in_range (n_classes_int self) t ->
  (exists out, (__call__ g self loss Tb train).2 = Ok out) /\
  cum_n_samp_per_cls (__call__ g self loss Tb train).1 =
    cum_n_samp_per_cls
      (counted self (filter (in_range (n_classes_int self)) Tb) train) /\
  (exists w,
     sample_weights (n_classes_int (counted self Tb train))
       (cum_n_samp_per_cls (counted self Tb train)) Tb = Ok w /\
     w !! j = Some vzero).
Proof.
  intros Hg Hlen Hn Hj Hout.
  destruct (counted_length self Tb train) as [Hclen Hcn].
  assert (Hw := sample_weights_ok (n_classes_int (counted self Tb train))
                  (cum_n_samp_per_cls (counted self Tb train)) Tb ltac:(lia)).
  split; [|split].
  - unfold __call__, _update_weights, normalized_weights. rewrite Hw, Hg. simpl.
    rewrite imul_same_length; [by eexists|].
    unfold to_dtype, tdiv_scalar. by rewrite !length_fmap.
  - destruct (call_counts g self loss Tb train) as [-> _].
    destruct train; simpl; [|done].
    by rewrite Hn, update_counts_filter_in_range.
  - eexists. split; [exact Hw|].
    rewrite list_lookup_fmap, Hj. simpl. f_equal.
    unfold class_weight. rewrite Hcn. by rewrite decide_False.
Qed.

Lemma out_of_range_label_is_ignored_witness :
  (exists out, (__call__ script_globals (__init__ 3) [vone; vone] [0; 5]%Z true).2 = Ok out) /\
  cum_n_samp_per_cls (__call__ script_globals (__init__ 3) [vone; vone] [0; 5]%Z true).1 =
    cum_n_samp_per_cls (counted (__init__ 3) (filter (in_range 3) [0; 5]%Z) true) /\
  (exists w,
     sample_weights 3 (cum_n_samp_per_cls (counted (__init__ 3) [0; 5]%Z true))
       [0; 5]%Z = Ok w /\
     w !! 1%nat = Some vzero).
Proof.
  apply (out_of_range_label_is_ignored script_globals (__init__ 3) [vone; vone]
           [0; 5]%Z true float32 1 5).
  - reflexivity.
  - reflexivity.
  - reflexivity.
  - reflexivity.
  - unfold in_range. simpl. lia.
Defined.

(** C7, as it is stated, fails for a training call, which counts its batch
    before it weighs it: the first call on a fresh balancer for two classes,
    training on one sample of each, finds the reciprocal probabilities
    [2, 2] and returns the losses it was given. *)
Lemma first_training_call_counterexample :
  let r := __call__ script_globals (__init__ 2) [vone; vone] [0; 1]%Z true in
  cum_n_samp_per_cls (__init__ 2) = zeros 2 /\
  recip_probs_arr (cum_n_samp_per_cls r.1) = [ratio 2 1; ratio 2 1] /\
  r.2 = Ok [vone; vone] /\
  r.2 <> Ok [NaN; NaN].
Proof.
  intros r. split; [|split; [|split]].
  - reflexivity.
  - apply tensor_eqb_eq. vm_compute. reflexivity.
  - apply result_tensor_eq. vm_compute. reflexivity.
  - assert (E : r.2 = Ok [vone; vone]) by (apply result_tensor_eq; vm_compute; reflexivity).
    rewrite E. discriminate.
Qed.

Lemma fmap_const_replicate {A B : Type} (b : B) (l : list A) :
  (fun _ => b) <$> l = replicate (length l) b.
Proof. induction l as [|a l IH]; simpl; [done | by rewrite <- IH]. Qed.

Lemma recip_probs_arr_zeros (n : nat) : recip_probs_arr (zeros n) = zeros n.
Proof.
  rewrite zeros_count_tensor, recip_probs_arr_count_tensor.
  unfold count_tensor. rewrite !fmap_replicate. by rewrite qnat_0.
Qed.

Lemma class_weight_zeros (n m : nat) (t : Z) : class_weight (zeros n) m t = vzero.
Proof.
  unfold class_weight. case_decide; [|done].
  unfold zeros. destruct (replicate n vzero !! Z.to_nat t) as [v|] eqn:E; [|done].
  by apply lookup_replicate_1 in E as [-> _].
Qed.

Lemma tmean_zeros (n : nat) : (0 < n)%nat -> tmean (zeros n) = vzero.
Proof.
  intros Hn. unfold zeros, vzero.
  rewrite <- (fmap_replicate Fin n 0), tmean_fin by (destruct n; [lia | done]).
  rewrite length_replicate. f_equal.
  replace (qsum (replicate n 0)) with 0.
  - field. apply qnat_nonzero. lia.
  - clear Hn. induction n as [|n IH]; [done|].
    simpl replicate. by rewrite qsum_cons, <- IH.
Qed.

Lemma normalized_zeros_nan (n : nat) :
  tdiv_scalar (zeros n) (tmean (zeros n)) = replicate n NaN.
Proof.
  destruct n as [|n]; [done|].
  rewrite tmean_zeros by lia. unfold tdiv_scalar, zeros.
  by rewrite fmap_replicate.
Qed.

Lemma zip_with_vmul_nan (loss : tensor) :
  zip_with vmul loss (replicate (length loss) NaN) = replicate (length loss) NaN.
Proof.
  induction loss as [|x loss IH]; simpl; [done|].
  by rewrite IH, vmul_nan_r.
Qed.

(** C7, amended.  On a fresh balancer that has been called, if at all, with
    [train = False] only, a further call with [train = False] finds the
    reciprocal probability zero for every class, gives every sample the
    weight zero, divides, for a batch that is not empty, by the mean zero,
    and returns NaN for every sample. *)
Theorem uncounted_eval_call_returns_nan (g : module_globals) (n : nat)
    (batches : list (tensor * labels)) (loss : tensor) (Tb : labels) (d : dtype) :
  loss_global g = Some d ->
  length loss = length Tb ->
  let self := run g (__init__ n) (evaluating batches) in
  recip_probs_arr (cum_n_samp_per_cls self) = zeros n /\
  sample_weights (n_classes_int self) (cum_n_samp_per_cls self) Tb =
    Ok (zeros (length Tb)) /\
  (Tb <> [] -> tmean (zeros (length Tb)) = vzero) /\
  (__call__ g self loss Tb false).2 = Ok (replicate (length loss) NaN).
Proof.
  intros Hg Hlen self.
  destruct (run_eval_counts g (__init__ n) batches) as [Hcum Hn].
  fold self in Hcum, Hn. simpl in Hcum, Hn.
  assert (Hw : sample_weights (n_classes_int self) (cum_n_samp_per_cls self) Tb =
               Ok (zeros (length Tb))).
  { rewrite sample_weights_ok.
    - rewrite Hcum, recip_probs_arr_zeros. f_equal.
      unfold zeros at 2. rewrite <- (fmap_const_replicate vzero Tb).
      apply list_fmap_ext. intros _ t _. apply class_weight_zeros.
    - rewrite Hcum, Hn. unfold zeros. by rewrite length_replicate. }
  split; [by rewrite Hcum, recip_probs_arr_zeros|].
  split; [done|].
  split.
  - intros Hne. apply tmean_zeros. destruct Tb; [done | simpl; lia].
  - unfold __call__, _update_weights, normalized_weights.
    rewrite counted_eval, Hw, Hg. simpl. unfold to_dtype.
    rewrite normalized_zeros_nan, <- Hlen, imul_same_length
      by by rewrite length_replicate.
    by rewrite zip_with_vmul_nan.
Qed.

Lemma uncounted_eval_call_returns_nan_witness :
  let self := run script_globals (__init__ 3) (evaluating [([vone], [2]%Z)]) in
  recip_probs_arr (cum_n_samp_per_cls self) = zeros 3 /\
  sample_weights (n_classes_int self) (cum_n_samp_per_cls self) [0; 1]%Z =
    Ok (zeros 2) /\
  ([0; 1]%Z <> [] -> tmean (zeros 2) = vzero) /\
  (__call__ script_globals self [vone; ratio 5 2] [0; 1]%Z false).2 = Ok [NaN; NaN].
Proof.
  apply (uncounted_eval_call_returns_nan script_globals 3 [([vone], [2]%Z)]
           [vone; ratio 5 2] [0; 1]%Z float32).
  - reflexivity.
  - reflexivity.
Defined.

(** C8, as it is stated, fails in its last part: [__init__] divides ones by
    the number of classes and does not normalize the result to mean one.
    For three classes the mean of the initial [weights_norm] is 1/3. *)
Lemma initial_weights_mean_counterexample :
  tmean (weights_norm (__init__ 3)) = ratio 1 3 /\
  tmean (weights_norm (__init__ 3)) <> vone.
Proof.
  assert (E : tmean (weights_norm (__init__ 3)) = ratio 1 3)
    by (apply val_eqb_eq; vm_compute; reflexivity).
  split; [done|]. rewrite E. intros [= H].
Qed.

Lemma qsum_replicate (n : nat) (q : Qc) : qsum (replicate n q) = qnat n * q.
Proof.
  induction n as [|n IH].
  - simpl. rewrite qnat_0. ring.
  - simpl replicate. rewrite qsum_cons, IH.
    replace (S n) with (n + 1)%nat by lia. rewrite qnat_add.
    replace (qnat 1) with 1 by (symmetry; apply Z2Qc_inj_1). ring.
Qed.

(** C8, amended.  After [__init__] for [n] classes, [n] positive,
    [weights_norm] has [n] entries, each of them [1/n]; they sum to one, and
    their mean is [1/n]. *)
Theorem initial_weights_uniform (n : nat) :
  (0 < n)%nat ->
  length (weights_norm (__init__ n)) = n /\
  weights_norm (__init__ n) = replicate n (Fin (1 / qnat n)) /\
  tsum (weights_norm (__init__ n)) = Fin 1 /\
  tmean (weights_norm (__init__ n)) = Fin (1 / qnat n).
Proof.
  intros Hn. assert (Hq : qnat n <> 0) by by apply qnat_nonzero.
  assert (Hw : weights_norm (__init__ n) = replicate n (Fin (1 / qnat n))).
  { simpl. unfold tdiv_scalar, ones. rewrite fmap_replicate. simpl.
    by rewrite decide_False. }
  assert (Hsum : tsum (weights_norm (__init__ n)) = Fin 1).
  { rewrite Hw, <- fmap_replicate, tsum_fin, qsum_replicate.
    f_equal. by field. }
  split; [by rewrite Hw, length_replicate|].
  split; [done|]. split; [done|].
  unfold tmean. rewrite Hsum, Hw, length_replicate. simpl.
  by rewrite decide_False.
Qed.

Lemma initial_weights_uniform_witness :
  length (weights_norm (__init__ 4)) = 4%nat /\
  weights_norm (__init__ 4) = replicate 4 (Fin (1 / qnat 4)) /\
  tsum (weights_norm (__init__ 4)) = Fin 1 /\
  tmean (weights_norm (__init__ 4)) = Fin (1 / qnat 4).
Proof. apply (initial_weights_uniform 4). lia. Defined.







(** ** Calls on references *)

(** The call on references does what the call on values does, as long as the
    loss passed in is not the balancer's own counter tensor: the balancer
    behind the references afterwards is the balancer after the call on
    values, a returned reference is the one passed in, and the store holds
    behind it what the call on values returns; a call that raises leaves the
    loss as it was. *)
Lemma call_by_ref_refines (g : module_globals) (s : list (list val))
    (self : ByRef.LossBalancer) (loss : nat) (Tb : labels) (train : bool)
    (v : LossBalancer) (l : tensor) :
  deref s self = Some v ->
  s !! loss = Some l ->
  loss <> ByRef.cum_n_samp_per_cls self ->
  ByRef.weights_norm self <> ByRef.cum_n_samp_per_cls self ->
  deref (ByRef.__call__ g s self loss Tb train).1.1 (ByRef.__call__ g s self loss Tb train).1.2 =
    Some (__call__ g v l Tb train).1 /\
  match (ByRef.__call__ g s self loss Tb train).2, (__call__ g v l Tb train).2 with
  | Ok r, Ok t =>
      r = loss /\ (ByRef.__call__ g s self loss Tb train).1.1 !! loss = Some t
  | Raise e, Raise e' =>
      e = e' /\ (ByRef.__call__ g s self loss Tb train).1.1 !! loss = Some l
  | _, _ => False
  end.
Proof.
  intros Hv Hl Hlc Hwc. unfold deref in Hv.
  destruct (s !! ByRef.cum_n_samp_per_cls self) as [cum|] eqn:Hcum; [|done].
  destruct (s !! ByRef.weights_norm self) as [wn|] eqn:Hwn; [|done].
  injection Hv as <-.
  set (v := {| n_classes_int := ByRef.n_classes_int self;
               cum_n_samp_per_cls := cum; weights_norm := wn |}).
  set (s1 := if train then ByRef._update_n_sample_counter s self Tb else s).
  assert (Hs1 : s1 !! ByRef.cum_n_samp_per_cls self =
                  Some (cum_n_samp_per_cls (counted v Tb train)) /\
                s1 !! loss = Some l /\
                s1 !! ByRef.weights_norm self = Some wn).
  { subst s1. destruct train; simpl; [|done].
    unfold ByRef._update_n_sample_counter. rewrite Hcum.
    apply lookup_lt_Some in Hcum as Hlt.
    rewrite list_lookup_insert_eq by done.
    by rewrite !list_lookup_insert_ne by done. }
  destruct Hs1 as (Hcum1 & Hl1 & Hwn1).
  assert (Hn : n_classes_int (counted v Tb train) = ByRef.n_classes_int self)
    by (by destruct train).
  assert (Hwn' : weights_norm (counted v Tb train) = wn) by (by destruct train).
  unfold ByRef.__call__, __call__. fold s1.
  unfold ByRef._update_weights, _update_weights. rewrite Hcum1, Hn.
  destruct (normalized_weights g (ByRef.n_classes_int self)
              (cum_n_samp_per_cls (counted v Tb train)) Tb) as [w|e]; simpl.
  - apply lookup_lt_Some in Hl1 as Hlt.
    unfold ByRef.imul_ref. simpl.
    rewrite (lookup_app_l_Some _ _ _ _ Hl1), list_lookup_middle by done.
    destruct (imul l w) as [product|e]; simpl.
    + unfold deref. simpl.
      rewrite list_lookup_insert_ne by done.
      rewrite (lookup_app_l_Some _ _ _ _ Hcum1).
      rewrite list_lookup_insert_ne by lia.
      rewrite list_lookup_middle by done.
      split; [done|]. split; [done|].
      apply list_lookup_insert_eq. rewrite length_app. simpl. lia.
    + unfold deref. simpl.
      rewrite (lookup_app_l_Some _ _ _ _ Hcum1), list_lookup_middle by done.
      split; [done|]. split; [done|].
      by apply lookup_app_l_Some.
  - unfold deref. rewrite Hcum1, Hwn1. split; [|done].
    f_equal. destruct train; done.
Qed.



(** * Further properties of the class *)

(** ** A call on a balancer as [__init__] shapes it *)

Lemma vadd_zero_r (a : val) : vadd a vzero = a.
Proof. destruct a; simpl; try reflexivity. by rewrite Qcplus_0_r. Qed.

Lemma update_counts_nil (cum : tensor) : update_counts [] cum = cum.
Proof.
  apply list_eq. intros i. rewrite update_counts_lookup.
  destruct (cum !! i) as [c|]; simpl; [|done].
  unfold count_eq. simpl. rewrite qnat_0. by rewrite vadd_zero_r.
Qed.

(** With the global [loss] bound and a reciprocal for every class index,
    nothing raises before the product: the call leaves the counters as it
    counted them and the per-sample weights over their mean in
    [weights_norm], and ends in the in-place product. *)
Lemma call_shaped (g : module_globals) (self : LossBalancer) (loss : tensor)
    (Tb : labels) (train : bool) (d : dtype) :
  loss_global g = Some d ->
  (n_classes_int self <= length (cum_n_samp_per_cls self))%nat ->
  let c := counted self Tb train in
  let w := class_weight (recip_probs_arr (cum_n_samp_per_cls c)) (n_classes_int c)
             <$> Tb in
  __call__ g self loss Tb train =
    ({| n_classes_int := n_classes_int c;
        cum_n_samp_per_cls := cum_n_samp_per_cls c;
        weights_norm := tdiv_scalar w (tmean w) |},
     imul loss (tdiv_scalar w (tmean w))).
Proof.
  intros Hg Hn c w.
  destruct (counted_length self Tb train) as [Hclen Hcn]. fold c in Hclen, Hcn.
  unfold __call__, _update_weights, normalized_weights. fold c.
  rewrite sample_weights_ok, Hg by lia. done.
Qed.

(** X1.  Without a global [loss] in the module (the class imported, not run
    as a script) every call on a balancer as [__init__] shapes it raises
    [NameError]; it does so after counting, so a training call has counted
    its batch all the same, and [weights_norm] stays what it was. *)
Theorem unbound_loss_call_counts_then_raises (g : module_globals)
    (self : LossBalancer) (loss : tensor) (Tb : labels) (train : bool) :
  loss_global g = None ->
  (n_classes_int self <= length (cum_n_samp_per_cls self))%nat ->
  (__call__ g self loss Tb train).2 = Raise NameError /\
  cum_n_samp_per_cls (__call__ g self loss Tb train).1 =
    (if train then update_counts Tb (cum_n_samp_per_cls self)
     else cum_n_samp_per_cls self) /\
  weights_norm (__call__ g self loss Tb train).1 = weights_norm self.
Proof.
  intros Hg Hn. rewrite call_without_global_loss by done.
  by destruct train.
Qed.

Lemma unbound_loss_call_counts_then_raises_witness :
  (__call__ imported_globals (__init__ 2) [vone] [1]%Z true).2 = Raise NameError /\
  cum_n_samp_per_cls (__call__ imported_globals (__init__ 2) [vone] [1]%Z true).1 =
    update_counts [1]%Z (zeros 2) /\
  weights_norm (__call__ imported_globals (__init__ 2) [vone] [1]%Z true).1 =
    weights_norm (__init__ 2).
Proof.
  apply (unbound_loss_call_counts_then_raises imported_globals (__init__ 2)
           [vone] [1]%Z true).
  - reflexivity.
  - simpl. lia.
Defined.

Lemma imul_shape_error (loss w : tensor) :
  length w <> length loss -> length w <> 1%nat -> imul loss w = Raise RuntimeError.
Proof.
  intros Hne H1. unfold imul. rewrite bool_decide_eq_false_2 by done.
  destruct w as [|w0 [|w1 w]]; simpl in *; done.
Qed.

(** X2.  A call whose labels are neither as many as the losses nor one
    raises the shape error of the product, and only then: by that time a
    training call has counted the batch and [weights_norm] has been replaced
    by one weight per label. *)
Theorem shape_error_after_update (g : module_globals) (self : LossBalancer)
    (loss : tensor) (Tb : labels) (train : bool) (d : dtype) :
  loss_global g = Some d ->
  (n_classes_int self <= length (cum_n_samp_per_cls self))%nat ->
  length Tb <> length loss ->
  length Tb <> 1%nat ->
  (__call__ g self loss Tb train).2 = Raise RuntimeError /\
  cum_n_samp_per_cls (__call__ g self loss Tb train).1 =
    (if train then update_counts Tb (cum_n_samp_per_cls self)
     else cum_n_samp_per_cls self) /\
  length (weights_norm (__call__ g self loss Tb train).1) = length Tb.
Proof.
  intros Hg Hn Hlen H1. rewrite (call_shaped g self loss Tb train d) by done.
  simpl. unfold tdiv_scalar. rewrite !length_fmap.
  split; [|split; [by destruct train | done]].
  apply imul_shape_error; by rewrite !length_fmap.
Qed.

Lemma shape_error_after_update_witness :
  (__call__ script_globals (__init__ 2) [vone] [0; 1]%Z true).2 = Raise RuntimeError /\
  cum_n_samp_per_cls (__call__ script_globals (__init__ 2) [vone] [0; 1]%Z true).1 =
    update_counts [0; 1]%Z (zeros 2) /\
  length (weights_norm (__call__ script_globals (__init__ 2) [vone] [0; 1]%Z true).1) =
    2%nat.
Proof.
  apply (shape_error_after_update script_globals (__init__ 2) [vone] [0; 1]%Z
           true float32).
  - reflexivity.
  - simpl. lia.
  - simpl. lia.
  - simpl. lia.
Defined.

(** X3.  The empty batch raises nothing: the call returns the empty loss,
    leaves every counter at its value, also when it trains, and leaves
    [weights_norm] empty. *)
Theorem empty_batch_call (g : module_globals) (self : LossBalancer) (train : bool)
    (d : dtype) :
  loss_global g = Some d ->
  (n_classes_int self <= length (cum_n_samp_per_cls self))%nat ->
  __call__ g self [] [] train =
    ({| n_classes_int := n_classes_int self;
        cum_n_samp_per_cls := cum_n_samp_per_cls self;
        weights_norm := [] |}, Ok []).
Proof.
  intros Hg Hn. rewrite (call_shaped g self [] [] train d) by done.
  simpl. destruct train; simpl; [|done].
  by rewrite update_counts_nil.
Qed.

Lemma empty_batch_call_witness :
  __call__ script_globals (__init__ 3) [] [] true =
    ({| n_classes_int := 3; cum_n_samp_per_cls := zeros 3; weights_norm := [] |},
     Ok []).
Proof.
  apply (empty_batch_call script_globals (__init__ 3) true float32).
  - reflexivity.
  - simpl. lia.
Defined.

(** X4.  One label for several losses is no shape error: the single
    normalized weight is broadcast, and every loss comes back multiplied by
    it. *)
Theorem single_label_is_broadcast (g : module_globals) (self : LossBalancer)
    (loss : tensor) (t : Z) (train : bool) (d : dtype) :
  loss_global g = Some d ->
  (n_classes_int self <= length (cum_n_samp_per_cls self))%nat ->
  exists w0,
    weights_norm (__call__ g self loss [t] train).1 = [w0] /\
    (__call__ g self loss [t] train).2 = Ok ((fun x => vmul x w0) <$> loss).
Proof.
  intros Hg Hn. rewrite (call_shaped g self loss [t] train d) by done.
  simpl. eexists. split; [reflexivity|].
  unfold imul. simpl. case_bool_decide as Hlen.
  - destruct loss as [|x [|y loss]]; simpl in *; done.
  - done.
Qed.

Lemma single_label_is_broadcast_witness :
  exists w0,
    weights_norm (__call__ script_globals (__init__ 2) [vone; ratio 5 2; NaN]
                    [1]%Z true).1 = [w0] /\
    (__call__ script_globals (__init__ 2) [vone; ratio 5 2; NaN] [1]%Z true).2 =
      Ok ((fun x => vmul x w0) <$> [vone; ratio 5 2; NaN]).
Proof.
  apply (single_label_is_broadcast script_globals (__init__ 2)
           [vone; ratio 5 2; NaN] 1%Z true float32).
  - reflexivity.
  - simpl. lia.
Defined.

(** X5.  The two loops run over different bounds, the counting loop over
    the length of the counter tensor and the weighting loop over
    [n_classes_int]: with fewer counters than [n_classes_int] every call
    raises [IndexError], whatever the batch, after the counting. *)
Theorem more_classes_than_counters_raises (g : module_globals) (self : LossBalancer)
    (loss : tensor) (Tb : labels) (train : bool) :
  (length (cum_n_samp_per_cls self) < n_classes_int self)%nat ->
  __call__ g self loss Tb train = (counted self Tb train, Raise IndexError).
Proof.
  intros Hn. destruct (counted_length self Tb train) as [Hclen Hcn].
  unfold __call__, _update_weights, normalized_weights.
  by rewrite sample_weights_index_error by lia.
Qed.

Lemma more_classes_than_counters_raises_witness :
  let self := {| n_classes_int := 3; cum_n_samp_per_cls := zeros 2;
                 weights_norm := [] |} in
  __call__ script_globals self [] [] false = (self, Raise IndexError).
Proof.
  apply (more_classes_than_counters_raises script_globals
           {| n_classes_int := 3; cum_n_samp_per_cls := zeros 2; weights_norm := [] |}
           [] [] false).
  simpl. lia.
Defined.

(** ** Counting *)





(** X7.  The counters do not depend on the order of the samples in the
    batch. *)
Theorem counting_ignores_sample_order (self : LossBalancer) (Tb Tb' : labels) :
  Tb ≡ₚ Tb' ->
  _update_n_sample_counter self Tb = _update_n_sample_counter self Tb'.
Proof.
  intros Hperm. unfold _update_n_sample_counter. f_equal.
  apply list_eq. intros i. rewrite !update_counts_lookup.
  assert (Hcount : count_eq Tb i = count_eq Tb' i).
  { unfold count_eq. apply Permutation_length. by apply filter_Permutation. }
  by rewrite Hcount.
Qed.

Lemma counting_ignores_sample_order_witness :
  _update_n_sample_counter (__init__ 3) [0; 1; 1; 2]%Z =
    _update_n_sample_counter (__init__ 3) [1; 0; 1; 2]%Z.
Proof.
  apply (counting_ignores_sample_order (__init__ 3) [0; 1; 1; 2]%Z [1; 0; 1; 2]%Z).
  apply perm_swap.
Defined.




(** ** Weights *)


(** Non-negative weights of which one is positive have a positive mean, and
    over it they stay numbers. *)
Lemma normalized_positive (qs : list Qc) (i : nat) (q : Qc) :
  Forall (fun q => 0 <= q) qs ->
  qs !! i = Some q ->
  0 < q ->
  0 < qsum qs / qnat (length qs) /\
  tmean (Fin <$> qs) = Fin (qsum qs / qnat (length qs)) /\
  tdiv_scalar (Fin <$> qs) (tmean (Fin <$> qs)) =
    Fin <$> ((fun x => x / (qsum qs / qnat (length qs))) <$> qs).
Proof.
  intros Hqs Hi Hq.
  assert (Hne : qs <> []) by (intros E; by rewrite E in Hi).
  assert (Hm : 0 < qsum qs / qnat (length qs)).
  { apply Qcdiv_pos; [by apply (qsum_pos qs i q)|].
    apply qnat_pos. destruct qs; [done | simpl; lia]. }
  split; [done|]. rewrite tmean_fin by done. split; [done|].
  apply tdiv_scalar_fin. by apply Qclt_nonzero.
Qed.

Lemma Qcdiv_nonneg (x y : Qc) : 0 <= x -> 0 < y -> 0 <= x / y.
Proof.
  intros Hx Hy. apply Qcmult_nonneg_nonneg; [done|].
  by apply Qclt_le_weak, Qcinv_pos.
Qed.

Lemma inv_freq_pos (total k : nat) :
  (0 < k <= total)%nat -> 0 < inv_freq total k.
Proof.
  intros Hk. unfold inv_freq. rewrite decide_False by lia.
  apply Qcdiv_pos; apply qnat_pos; lia.
Qed.

(** X9.  As soon as one sample of the batch belongs to a class that has
    been counted by the time of the weighting, no weight of the call is
    NaN or infinite: every entry of [weights_norm] is a number that is not
    negative, and their mean is one. *)
Theorem counted_class_makes_weights_finite (g : module_globals)
    (self : LossBalancer) (loss : tensor) (Tb : labels) (train : bool) (d : dtype)
    (ks : list nat) (c k i : nat) :
  loss_global g = Some d ->
  n_classes_int self = length ks ->
  cum_n_samp_per_cls (counted self Tb train) = count_tensor ks ->
  Tb !! i = Some (Z.of_nat c) ->
  ks !! c = Some k ->
  (0 < k)%nat ->
  Forall (fun v => exists q, v = Fin q /\ 0 <= q)
    (weights_norm (__call__ g self loss Tb train).1) /\
  tmean (weights_norm (__call__ g self loss Tb train).1) = Fin 1.
Proof.
  intros Hg Hn Hks Hi Hc Hk.
  destruct (call_weights_count_tensor g self loss Tb train d ks Hg Hn Hks)
    as (_ & -> & _).
  set (qs := count_weight ks (length ks) <$> Tb).
  assert (Hnonneg : Forall (fun q => 0 <= q) qs).
  { subst qs. apply Forall_fmap, Forall_forall. intros t _. simpl.
    apply count_weight_nonneg. }
  assert (Hqi : qs !! i = Some (inv_freq (sum_list ks) k)).
  { subst qs. rewrite list_lookup_fmap, Hi. simpl. f_equal.
    by apply count_weight_lookup. }
  assert (Hpos : 0 < inv_freq (sum_list ks) k).
  { apply inv_freq_pos. split; [done|]. by eapply sum_list_lookup_le. }
  destruct (normalized_positive qs i _ Hnonneg Hqi Hpos) as (Hm & Hmean & Hnorm).
  split.
  - rewrite Hnorm. apply Forall_fmap, Forall_fmap, Forall_forall.
    intros q Hq. simpl. eexists. split; [done|].
    apply Qcdiv_nonneg; [|done].
    by apply (proj1 (Forall_forall _ _) Hnonneg).
  - rewrite Hmean. apply tmean_normalized; [done | by apply Qclt_nonzero].
Qed.

Lemma counted_class_makes_weights_finite_witness :
  let self := run script_globals (__init__ 3) (training [([vone], [0]%Z)]) in
  Forall (fun v => exists q, v = Fin q /\ 0 <= q)
    (weights_norm (__call__ script_globals self [vone; vone; vone]
                     [2; 0; 7]%Z false).1) /\
  tmean (weights_norm (__call__ script_globals self [vone; vone; vone]
                         [2; 0; 7]%Z false).1) = Fin 1.
Proof.
  apply (counted_class_makes_weights_finite script_globals
           (run script_globals (__init__ 3) (training [([vone], [0]%Z)]))
           [vone; vone; vone] [2; 0; 7]%Z false float32 [1; 0; 0]%nat 0 1 1).
  - reflexivity.
  - reflexivity.
  - apply tensor_eqb_eq. vm_compute. reflexivity.
  - reflexivity.
  - reflexivity.
  - lia.
Defined.

(** A label whose class has not been counted, or which names no class. *)
Lemma count_weight_uncounted (ks : list nat) (t : Z) :
  ~ in_range (length ks) t \/ ks !! Z.to_nat t = Some 0%nat ->
  count_weight ks (length ks) t = 0.
Proof.
  intros [Hout|Hzero]; unfold count_weight.
  - by rewrite decide_False.
  - case_decide; [|done]. by rewrite Hzero.
Qed.

(** X10.  When no sample of the batch belongs to a class that has been
    counted by the time of the weighting, be the balancer fresh or not,
    every weight in [weights_norm] is NaN, and so is every loss that the
    call returns. *)
Theorem uncounted_batch_returns_nan (g : module_globals) (self : LossBalancer)
    (loss : tensor) (Tb : labels) (train : bool) (d : dtype) (ks : list nat) :
  loss_global g = Some d ->
  n_classes_int self = length ks ->
  cum_n_samp_per_cls (counted self Tb train) = count_tensor ks ->
  length loss = length Tb ->
  Forall (fun t => ~ in_range (length ks) t \/ ks !! Z.to_nat t = Some 0%nat) Tb ->
  weights_norm (__call__ g self loss Tb train).1 = replicate (length Tb) NaN /\
  (__call__ g self loss Tb train).2 = Ok (replicate (length loss) NaN).
Proof.
  intros Hg Hn Hks Hlen Hun.
  destruct (call_weights_count_tensor g self loss Tb train d ks Hg Hn Hks)
    as (_ & -> & ->).
  assert (Hqs : Fin <$> (count_weight ks (length ks) <$> Tb) = zeros (length Tb)).
  { unfold zeros. rewrite <- (fmap_const_replicate vzero Tb), <- list_fmap_compose.
    apply list_fmap_ext. intros i t Ht. simpl. unfold vzero. f_equal.
    apply count_weight_uncounted.
    by apply (proj1 (Forall_lookup _ _) Hun i). }
  rewrite Hqs, normalized_zeros_nan. split; [done|].
  rewrite <- Hlen, imul_same_length by by rewrite length_replicate.
  by rewrite zip_with_vmul_nan.
Qed.

Lemma uncounted_batch_returns_nan_witness :
  let self := run script_globals (__init__ 3) (training [([vone], [0]%Z)]) in
  weights_norm (__call__ script_globals self [vone; ratio 5 2] [2; 7]%Z false).1 =
    replicate 2 NaN /\
  (__call__ script_globals self [vone; ratio 5 2] [2; 7]%Z false).2 =
    Ok (replicate 2 NaN).
Proof.
  apply (uncounted_batch_returns_nan script_globals
           (run script_globals (__init__ 3) (training [([vone], [0]%Z)]))
           [vone; ratio 5 2] [2; 7]%Z false float32 [1; 0; 0]%nat).
  - reflexivity.
  - reflexivity.
  - apply tensor_eqb_eq. vm_compute. reflexivity.
  - reflexivity.
  - constructor; [right; reflexivity|].
    constructor; [left; unfold in_range; simpl; lia|].
    constructor.
Defined.

(** X11.  Beside a sample of a counted class, a sample whose class has not
    been counted by the time of the weighting, or whose label names no
    class, has the normalized weight zero: a loss that is a number comes
    back for it as zero. *)
Theorem uncounted_sample_is_zeroed (g : module_globals) (self : LossBalancer)
    (loss : tensor) (Tb : labels) (train : bool) (d : dtype) (ks : list nat)
    (c k i j : nat) (t : Z) (x : Qc) :
  loss_global g = Some d ->
  n_classes_int self = length ks ->
  cum_n_samp_per_cls (counted self Tb train) = count_tensor ks ->
  length loss = length Tb ->
  Tb !! i = Some (Z.of_nat c) ->
  ks !! c = Some k ->
  (0 < k)%nat ->
  Tb !! j = Some t ->
  ~ in_range (length ks) t \/ ks !! Z.to_nat t = Some 0%nat ->
  loss !! j = Some (Fin x) ->
  weights_norm (__call__ g self loss Tb train).1 !! j = Some vzero /\
  exists out,
    (__call__ g self loss Tb train).2 = Ok out /\ out !! j = Some vzero.
Proof.
  intros Hg Hn Hks Hlen Hi Hc Hk Hj Hun Hx.
  destruct (call_weights_count_tensor g self loss Tb train d ks Hg Hn Hks)
    as (_ & -> & ->).
  set (qs := count_weight ks (length ks) <$> Tb).
  assert (Hnonneg : Forall (fun q => 0 <= q) qs).
  { subst qs. apply Forall_fmap, Forall_forall. intros t' _. simpl.
    apply count_weight_nonneg. }
  assert (Hqi : qs !! i = Some (inv_freq (sum_list ks) k)).
  { subst qs. rewrite list_lookup_fmap, Hi. simpl. f_equal.
    by apply count_weight_lookup. }
  assert (Hqj : qs !! j = Some 0).
  { subst qs. rewrite list_lookup_fmap, Hj. simpl. f_equal.
    by apply count_weight_uncounted. }
  assert (Hpos : 0 < inv_freq (sum_list ks) k).
  { apply inv_freq_pos. split; [done|]. by eapply sum_list_lookup_le. }
  destruct (normalized_positive qs i _ Hnonneg Hqi Hpos) as (Hm & _ & ->).
  set (m := qsum qs / qnat (length qs)) in *.
  assert (Hwj : (Fin <$> ((fun q => q / m) <$> qs)) !! j = Some vzero).
  { rewrite !list_lookup_fmap, Hqj. simpl. unfold vzero. do 2 f_equal.
    field. by apply Qclt_nonzero. }
  split; [done|].
  rewrite imul_same_length
    by (rewrite !length_fmap; subst qs; by rewrite length_fmap).
  eexists. split; [reflexivity|].
  rewrite lookup_zip_with, Hx, Hwj. simpl. unfold vzero. do 2 f_equal. ring.
Qed.

Lemma uncounted_sample_is_zeroed_witness :
  let self := run script_globals (__init__ 3) (training [([vone], [0]%Z)]) in
  weights_norm (__call__ script_globals self [vone; ratio 5 2] [0; 2]%Z false).1
    !! 1%nat = Some vzero /\
  exists out,
    (__call__ script_globals self [vone; ratio 5 2] [0; 2]%Z false).2 = Ok out /\
    out !! 1%nat = Some vzero.
Proof.
  apply (uncounted_sample_is_zeroed script_globals
           (run script_globals (__init__ 3) (training [([vone], [0]%Z)]))
           [vone; ratio 5 2] [0; 2]%Z false float32 [1; 0; 0]%nat
           0 1 0 1 2 (Qc_of_Z 5 / Qc_of_Z 2)).
  - reflexivity.
  - reflexivity.
  - apply tensor_eqb_eq. vm_compute. reflexivity.
  - reflexivity.
  - reflexivity.
  - reflexivity.
  - lia.
  - reflexivity.
  - right. reflexivity.
  - reflexivity.
Defined.









Lemma masked_add_length (Tb : labels) (i : nat) (r : val) (weights : tensor) :
  length (masked_add Tb i r weights) = length weights.
Proof.
  revert weights. induction Tb as [|t Tb IH]; intros [|w weights]; simpl; try done.
  by rewrite IH.
Qed.

Lemma weights_loop_length (recip : tensor) (Tb : labels) (classes : list nat)
    (weights w : tensor) :
  weights_loop recip Tb classes weights = Ok w -> length w = length weights.
Proof.
  revert weights. induction classes as [|i classes IH]; intros weights; simpl.
  - by intros [= <-].
  - destruct (recip !! i) as [r|]; [|discriminate].
    intros H. apply IH in H. by rewrite masked_add_length in H.
Qed.

Lemma sample_weights_length (n : nat) (cum : tensor) (Tb : labels) (w : tensor) :
  sample_weights n cum Tb = Ok w -> length w = length Tb.
Proof.
  intros H. apply weights_loop_length in H.
  unfold zeros in H. by rewrite length_replicate in H.
Qed.

Lemma zip_with_vmul_fin (ls qs : list Qc) :
  zip_with vmul (Fin <$> ls) (Fin <$> qs) = Fin <$> zip_with Qcmult ls qs.
Proof.
  revert qs. induction ls as [|l ls IH]; intros [|q qs]; csimpl; try done.
  by rewrite IH.
Qed.

Lemma qdot_div (ls qs : list Qc) (m : Qc) :
  m <> 0 -> qdot ls ((fun q => q / m) <$> qs) = qdot ls qs / m.
Proof.
  intros Hm. unfold qdot. revert qs.
  induction ls as [|l ls IH]; intros [|q qs]; csimpl;
    try (unfold qsum; simpl; field; done).
  rewrite IH. by field.
Qed.

(** X14.  What the balancing does to the mean: when the losses are numbers,
    as many as the labels, and the per-sample weights are numbers that do
    not sum to zero, the mean of the returned loss is the average of the
    losses weighted by the per-sample weights. *)
Theorem balanced_mean_is_weighted_average (g : module_globals)
    (self : LossBalancer) (ls : list Qc) (Tb : labels) (train : bool) (d : dtype)
    (qs : list Qc) :
  loss_global g = Some d ->
  length ls = length Tb ->
  sample_weights (n_classes_int (counted self Tb train))
    (cum_n_samp_per_cls (counted self Tb train)) Tb = Ok (Fin <$> qs) ->
  qsum qs <> 0 ->
  exists out,
    (__call__ g self (Fin <$> ls) Tb train).2 = Ok out /\
    tmean out = Fin (qdot ls qs / qsum qs).
Proof.
  intros Hg Hlen Hw Hsum.
  assert (Hqlen : length qs = length Tb).
  { apply sample_weights_length in Hw. by rewrite length_fmap in Hw. }
  assert (Hne : qs <> []) by (intros ->; by apply Hsum).
  assert (HN : qnat (length qs) <> 0).
  { apply qnat_nonzero. destruct qs; [done | simpl; lia]. }
  set (m := qsum qs / qnat (length qs)).
  assert (Hm : m <> 0).
  { subst m. intros E. apply Hsum.
    replace (qsum qs) with (qsum qs / qnat (length qs) * qnat (length qs))
      by (by field).
    rewrite E. ring. }
  unfold __call__, _update_weights, normalized_weights.
  rewrite Hw, Hg. simpl. unfold to_dtype.
  rewrite tmean_fin by done. fold m.
  rewrite tdiv_scalar_fin by done.
  rewrite imul_same_length by (rewrite !length_fmap; lia).
  rewrite zip_with_vmul_fin.
  eexists. split; [reflexivity|].
  assert (Hzlen : length (zip_with Qcmult ls ((fun q => q / m) <$> qs)) = length qs).
  { rewrite length_zip_with, length_fmap. lia. }
  rewrite tmean_fin.
  - rewrite Hzlen. f_equal.
    change (qsum (zip_with Qcmult ls ((fun q => q / m) <$> qs)))
      with (qdot ls ((fun q => q / m) <$> qs)).
    rewrite qdot_div by done. subst m. by field.
  - intros E. rewrite E in Hzlen. destruct qs; [done | discriminate].
Qed.

Lemma balanced_mean_is_weighted_average_witness :
  exists out,
    (__call__ script_globals (__init__ 3)
       (Fin <$> [Qc_of_Z 6; Qc_of_Z 0; Qc_of_Z 0; Qc_of_Z 3; Qc_of_Z 3; Qc_of_Z 1])
       [0; 0; 0; 1; 1; 2]%Z true).2 = Ok out /\
    tmean out =
      Fin (qdot [Qc_of_Z 6; Qc_of_Z 0; Qc_of_Z 0; Qc_of_Z 3; Qc_of_Z 3; Qc_of_Z 1]
             (Qc_of_Z <$> [2; 2; 2; 3; 3; 6]%Z) /
           qsum (Qc_of_Z <$> [2; 2; 2; 3; 3; 6]%Z)).
Proof.
  apply (balanced_mean_is_weighted_average script_globals (__init__ 3)
           [Qc_of_Z 6; Qc_of_Z 0; Qc_of_Z 0; Qc_of_Z 3; Qc_of_Z 3; Qc_of_Z 1]
           [0; 0; 0; 1; 1; 2]%Z true float32 (Qc_of_Z <$> [2; 2; 2; 3; 3; 6]%Z)).
  - reflexivity.
  - reflexivity.
  - apply result_tensor_eq. vm_compute. reflexivity.
  - apply Qclt_nonzero. reflexivity.
Defined.

(** ** The store *)

(** X15.  What a call never touches: of the tensors that exist when it is
    made, it writes into the loss it was given and, when it trains, into
    the balancer's counter tensor, and into no other; every other tensor,
    the previous [weights_norm] among them, holds afterwards what it held,
    whether the call returns or raises.  The balancer keeps its counter
    tensor and its number of classes. *)
Theorem call_writes_loss_and_counters_only (g : module_globals)
    (s : list (list val)) (self : ByRef.LossBalancer) (loss : nat) (Tb : labels)
    (train : bool) (r : nat) (t : tensor) :
  s !! r = Some t ->
  r <> loss ->
  r <> ByRef.cum_n_samp_per_cls self \/ train = false ->
  (ByRef.__call__ g s self loss Tb train).1.1 !! r = Some t /\
  ByRef.cum_n_samp_per_cls (ByRef.__call__ g s self loss Tb train).1.2 =
    ByRef.cum_n_samp_per_cls self /\
  ByRef.n_classes_int (ByRef.__call__ g s self loss Tb train).1.2 =
    ByRef.n_classes_int self.
Proof.
  intros Hr Hloss Hcum.
  set (s1 := if train then ByRef._update_n_sample_counter s self Tb else s).
  assert (Hr1 : s1 !! r = Some t).
  { subst s1. destruct train; [|done].
    destruct Hcum as [Hcum|[=]].
    unfold ByRef._update_n_sample_counter.
    destruct (s !! ByRef.cum_n_samp_per_cls self); [|done].
    by rewrite list_lookup_insert_ne by done. }
  unfold ByRef.__call__. fold s1. unfold ByRef._update_weights.
  destruct (s1 !! ByRef.cum_n_samp_per_cls self) as [cum|]; [|done].
  destruct (normalized_weights g (ByRef.n_classes_int self) cum Tb) as [w|e];
    simpl; [|done].
  unfold ByRef.imul_ref. simpl.
  destruct ((s1 ++ [w]) !! loss) as [l|]; simpl.
  - rewrite list_lookup_middle by done.
    destruct (imul l w) as [product|e]; simpl.
    + rewrite list_lookup_insert_ne by done.
      split; [by apply lookup_app_l_Some | done].
    + split; [by apply lookup_app_l_Some | done].
  - split; [by apply lookup_app_l_Some | done].
Qed.

Lemma call_writes_loss_and_counters_only_witness :
  let sb := ByRef.__init__ [replicate 2 vone; replicate 2 vone] 3 in
  (ByRef.__call__ script_globals sb.1 sb.2 1 [0; 2]%Z true).1.1 !! 0%nat =
    Some (replicate 2 vone) /\
  ByRef.cum_n_samp_per_cls
    (ByRef.__call__ script_globals sb.1 sb.2 1 [0; 2]%Z true).1.2 =
    ByRef.cum_n_samp_per_cls sb.2 /\
  ByRef.n_classes_int (ByRef.__call__ script_globals sb.1 sb.2 1 [0; 2]%Z true).1.2 =
    ByRef.n_classes_int sb.2.
Proof.
  apply (call_writes_loss_and_counters_only script_globals
           (ByRef.__init__ [replicate 2 vone; replicate 2 vone] 3).1
           (ByRef.__init__ [replicate 2 vone; replicate 2 vone] 3).2
           1 [0; 2]%Z true 0 (replicate 2 vone)).
  - reflexivity.
  - lia.
  - left. simpl. lia.
Defined.
